(** * TapInterface: lifecycle of the Dobby TAP device

    A shallow embedding of [rdkPlugins/Networking/source/TapInterface.cpp].

    The class has one data member, the descriptor [mFd].  Its methods talk to
    the kernel ([open], [ioctl], [close]), to the logger and to a [Netlink]
    object handed in by the caller.  Each method is embedded as a small
    program over those calls, threading the object's state explicitly; the
    programs are then run against an arbitrary environment that answers the
    calls, and the run records every call together with its answer. *)

From Stdlib Require Import ZArith List String Strings.Byte Bool Lia.
Import ListNotations.

Local Open Scope string_scope.
Local Open Scope Z_scope.

(** ** Constants *)

(** [#define TAP_NAME "dobby_tap0"] *)
Definition TAP_NAME : string := "dobby_tap0".

(** Values of the Linux headers the file includes ([fcntl.h], [net/if.h],
    [linux/if_tun.h]). *)
Module Sys.
Definition O_RDWR : Z := 2.
Definition O_CLOEXEC : Z := 524288.        (* 02000000 *)
Definition IFF_TAP : Z := 2.               (* 0x0002 *)
Definition IFF_NO_PI : Z := 4096.          (* 0x1000 *)
Definition IFF_ONE_QUEUE : Z := 8192.      (* 0x2000 *)
Definition IFNAMSIZ : nat := 16.
Definition TUNSETIFF : Z := 1074025674.    (* _IOW('T', 202, int) *)
End Sys.

(** ** Data *)

(** [std::array<uint8_t, 6>] *)
Definition MacAddress : Type :=
  (byte * byte * byte * byte * byte * byte)%type.

(** The two members of [struct ifreq] the code writes. *)
Record ifreq : Type := mk_ifreq
  { ifr_name : list byte;
    ifr_flags : Z }.

(** [bzero(&ifr, sizeof(ifr))] *)
Definition bzero_ifreq : ifreq :=
  {| ifr_name := repeat x00 Sys.IFNAMSIZ; ifr_flags := 0 |}.

(** [strncpy(dest, src, n)]: the first [n] characters of [src], padded with
    NUL up to [n]; no terminator is added when [src] has [n] or more. *)
Definition strncpy (src : string) (n : nat) : list byte :=
  let cs := list_byte_of_string src in
  (firstn n cs ++ repeat x00 (n - List.length cs))%list.

(** The object a [std::shared_ptr<Netlink>] refers to. *)
Inductive Netlink : Type :=
| NetlinkObj (id : nat).

(** The state of a [TapInterface] object: the member [int mFd].  The code
    only assigns and compares it, so no arithmetic can overflow. *)
Record TapInterface : Type := mk_TapInterface
  { mFd : Z }.

(** Modelled from the spec: the constructor lives in [TapInterface.h], which
    is not among the sources; the spec has the handle "constructed with
    descriptor = sentinel". *)
Definition TapInterface_new : TapInterface := {| mFd := -1 |}.

(** ** Calls to the outside *)

Inductive call : Type -> Type :=
| sys_open (path : string) (flags : Z) : call Z
| sys_ioctl (fd request : Z) (arg : ifreq) : call Z
| sys_close (fd : Z) : call Z
| AI_LOG_SYS_ERROR (fmt : string) (args : list string) : call unit
| ifaceUp (netlink : Netlink) (ifaceName : string) : call bool
| ifaceDown (netlink : Netlink) (ifaceName : string) : call bool
| getIfaceMAC (netlink : Netlink) (ifaceName : string) : call MacAddress
| setIfaceMAC (netlink : Netlink) (ifaceName : string) (address : MacAddress)
    : call bool.

(** A call that was made, with the answer it got. *)
Inductive event : Type :=
| Event (X : Type) (c : call X) (answer : X).

Arguments Event {X} c answer.

(** Programs: finite trees of calls. *)
Inductive Prog (R : Type) : Type :=
| Ret (r : R)
| Vis (X : Type) (c : call X) (k : X -> Prog R).

Arguments Ret {R} r.
Arguments Vis {R X} c k.

Fixpoint pbind {A B : Type} (p : Prog A) (f : A -> Prog B) : Prog B :=
  match p with
  | Ret a => f a
  | Vis c k => Vis c (fun x => pbind (k x) f)
  end.

(** Methods of [TapInterface]: programs that thread the object's state. *)
Definition TapM (A : Type) : Type := TapInterface -> Prog (A * TapInterface).

Definition ret {A : Type} (a : A) : TapM A := fun s => Ret (a, s).

Definition bind {A B : Type} (m : TapM A) (f : A -> TapM B) : TapM B :=
  fun s => pbind (m s) (fun r => f (fst r) (snd r)).

Definition perform {X : Type} (c : call X) : TapM X :=
  fun s => Vis c (fun x => Ret (x, s)).

Definition get_mFd : TapM Z := fun s => Ret (mFd s, s).

Definition set_mFd (fd : Z) : TapM unit := fun _ => Ret (tt, {| mFd := fd |}).

Declare Scope tap_scope.
Delimit Scope tap_scope with tap.
Notation "x <- m ;; k" := (bind m (fun x => k))
  (at level 61, m at next level, right associativity) : tap_scope.
Notation "m ;; k" := (bind m (fun _ => k))
  (at level 61, right associativity) : tap_scope.
Local Open Scope tap_scope.

(** ** The methods *)

(** The request [createTapInterface] hands to [ioctl]. *)
Definition tap_ifreq : ifreq :=
  let ifr := bzero_ifreq in
  let ifr := {| ifr_name := ifr_name ifr;
                ifr_flags := Z.lor (Z.lor Sys.IFF_TAP Sys.IFF_NO_PI)
                                   Sys.IFF_ONE_QUEUE |} in
  {| ifr_name := strncpy TAP_NAME Sys.IFNAMSIZ;
     ifr_flags := ifr_flags ifr |}.

Definition createTapInterface : TapM bool :=
  fd <- get_mFd ;;
  if fd >=? 0 then
    (* Tap device already open *)
    ret true
  else
    r <- perform (sys_open "/dev/net/tun" (Z.lor Sys.O_CLOEXEC Sys.O_RDWR)) ;;
    set_mFd r ;;
    fd <- get_mFd ;;
    if fd <? 0 then
      perform (AI_LOG_SYS_ERROR "failed to open '/dev/net/tun'" []) ;;
      ret false
    else
      (* ask for kernel for new device *)
      fd <- get_mFd ;;
      r <- perform (sys_ioctl fd Sys.TUNSETIFF tap_ifreq) ;;
      if negb (r =? 0) then
        perform (AI_LOG_SYS_ERROR "failed to create tap device '%s'"
                                  [TAP_NAME]) ;;
        fd <- get_mFd ;;
        perform (sys_close fd) ;;
        set_mFd (-1) ;;
        ret false
      else
        ret true.

(** [(mFd >= 0) && (close(mFd) != 0)]: [close] is only called when the
    left operand holds. *)
Definition destroyTapInterface : TapM bool :=
  fd <- get_mFd ;;
  failed <- (if fd >=? 0
             then r <- perform (sys_close fd) ;; ret (negb (r =? 0))
             else ret false) ;;
  if (failed : bool) then
    perform (AI_LOG_SYS_ERROR "failed to close the tap fd" []) ;;
    ret false
  else
    set_mFd (-1) ;;
    ret true.

Definition isValid : TapM bool :=
  fd <- get_mFd ;;
  ret (fd >=? 0).

Definition name : TapM string :=
  ret TAP_NAME.

Definition up (netlink : Netlink) : TapM bool :=
  fd <- get_mFd ;;
  if fd <? 0 then ret false
  else perform (ifaceUp netlink TAP_NAME).

Definition down (netlink : Netlink) : TapM bool :=
  fd <- get_mFd ;;
  if fd <? 0 then ret false
  else perform (ifaceDown netlink TAP_NAME).

Definition macAddress (netlink : Netlink) : TapM MacAddress :=
  perform (getIfaceMAC netlink TAP_NAME).

Definition setMACAddress (netlink : Netlink) (address : MacAddress)
  : TapM bool :=
  perform (setIfaceMAC netlink TAP_NAME address).

(** ** Running a method against an environment *)

(** An environment answers every call and moves to its next state. *)
Definition handler (W : Type) : Type := forall X : Type, call X -> W -> X * W.

Record Outcome (W R : Type) : Type := mk_Outcome
  { retval : R;
    self : TapInterface;
    world : W;
    calls : list event }.

Arguments mk_Outcome {W R} retval self world calls.
Arguments retval {W R} o.
Arguments self {W R} o.
Arguments world {W R} o.
Arguments calls {W R} o.

Definition logged {W R : Type} (e : event) (o : Outcome W R) : Outcome W R :=
  {| retval := retval o; self := self o; world := world o;
     calls := e :: calls o |}.

Fixpoint exec {W : Type} (h : handler W) {R : Type}
  (p : Prog (R * TapInterface)) (w : W) : Outcome W R :=
  match p with
  | Ret r => {| retval := fst r; self := snd r; world := w; calls := [] |}
  | Vis c k =>
      let a := h _ c w in
      logged (Event c (fst a)) (exec h (k (fst a)) (snd a))
  end.

(** One outcome followed by another. *)
Definition and_then {W A B : Type} (o : Outcome W A) (o' : Outcome W B)
  : Outcome W B :=
  {| retval := retval o'; self := self o'; world := world o';
     calls := (calls o ++ calls o')%list |}.

(** ** A scripted environment

    Every call gets a fixed answer; the MAC address written last is the one
    read back. *)
Record Script : Type := mk_Script
  { open_ret : Z;
    ioctl_ret : Z;
    close_ret : Z;
    link_ret : bool;
    mac : MacAddress }.

Definition scripted : handler Script :=
  fun X c =>
    match c in call X return Script -> X * Script with
    | sys_open _ _ => fun k => (open_ret k, k)
    | sys_ioctl _ _ _ => fun k => (ioctl_ret k, k)
    | sys_close _ => fun k => (close_ret k, k)
    | AI_LOG_SYS_ERROR _ _ => fun k => (tt, k)
    | ifaceUp _ _ => fun k => (link_ret k, k)
    | ifaceDown _ _ => fun k => (link_ret k, k)
    | getIfaceMAC _ _ => fun k => (mac k, k)
    | setIfaceMAC _ _ a => fun k =>
        (link_ret k,
         {| open_ret := open_ret k; ioctl_ret := ioctl_ret k;
            close_ret := close_ret k; link_ret := link_ret k; mac := a |})
    end.

Definition mac_zero : MacAddress := (x00, x00, x00, x00, x00, x00).

(** A kernel on which everything works: [open] gives descriptor 3. *)
Definition good_kernel : Script :=
  {| open_ret := 3; ioctl_ret := 0; close_ret := 0; link_ret := true;
     mac := mac_zero |}.

(** [open] works, the TUNSETIFF request is refused. *)
Definition refusing_kernel : Script :=
  {| open_ret := 3; ioctl_ret := -1; close_ret := 0; link_ret := true;
     mac := mac_zero |}.

(** [close] reports an error. *)
Definition failing_close_kernel : Script :=
  {| open_ret := 3; ioctl_ret := 0; close_ret := -1; link_ret := false;
     mac := mac_zero |}.

(** ** Validity, as [isValid] reports it *)

Definition valid (s : TapInterface) : Prop := isValid s = Ret (true, s).

Definition invalid (s : TapInterface) : Prop := isValid s = Ret (false, s).

(** What the spec says of a close error in [destroyTapInterface]: failure
    is returned, and the handle is invalid afterwards, the old descriptor
    gone. *)
Definition destroy_failure_invalidates : Prop :=
  forall (W : Type) (h : handler W) (w : W) (s : TapInterface),
    valid s ->
    fst (h _ (sys_close (mFd s)) w) <> 0 ->
    let o := exec h (destroyTapInterface s) w in
    retval o = false /\ invalid (self o) /\ mFd (self o) <> mFd s.

(** ** Reading a record of calls *)

(** The descriptor an event hands out: the answer of a successful [open]. *)
Definition opened (e : event) : list Z :=
  match e with
  | Event c a =>
      match c in call X return X -> list Z with
      | sys_open _ _ => fun fd => if fd >=? 0 then [fd] else []
      | _ => fun _ => []
      end a
  end.

(** The descriptor an event gives to [close]. *)
Definition closed (e : event) : list Z :=
  match e with
  | Event c _ =>
      match c with
      | sys_close fd => [fd]
      | _ => []
      end
  end.

(** Calls on the Netlink object, as against system calls and log lines. *)
Definition is_netlink_call (e : event) : bool :=
  match e with
  | Event c _ =>
      match c with
      | ifaceUp _ _ | ifaceDown _ _ | getIfaceMAC _ _ | setIfaceMAC _ _ _ =>
          true
      | _ => false
      end
  end.

(** ** Sequences of method calls

    What a user of the class does with one object: any of its public
    methods, one after the other, the results dropped. *)
Inductive method : Type :=
| call_createTapInterface
| call_destroyTapInterface
| call_isValid
| call_name
| call_up (netlink : Netlink)
| call_down (netlink : Netlink)
| call_macAddress (netlink : Netlink)
| call_setMACAddress (netlink : Netlink) (address : MacAddress).

Definition invoke (m : method) : TapM unit :=
  match m with
  | call_createTapInterface => createTapInterface ;; ret tt
  | call_destroyTapInterface => destroyTapInterface ;; ret tt
  | call_isValid => isValid ;; ret tt
  | call_name => name ;; ret tt
  | call_up netlink => up netlink ;; ret tt
  | call_down netlink => down netlink ;; ret tt
  | call_macAddress netlink => macAddress netlink ;; ret tt
  | call_setMACAddress netlink address =>
      setMACAddress netlink address ;; ret tt
  end.

Fixpoint invoke_all (ms : list method) : TapM unit :=
  match ms with
  | [] => ret tt
  | m :: ms' => invoke m ;; invoke_all ms'
  end.

(** The two methods that assign [mFd]. *)
Definition is_lifecycle (m : method) : bool :=
  match m with
  | call_createTapInterface | call_destroyTapInterface => true
  | _ => false
  end.

(** An environment whose [close] fails the first time and works after
    that: the state counts the [close] calls still to fail. *)
Definition close_fails_first : handler nat :=
  fun X c =>
    match c in call X return nat -> X * nat with
    | sys_open _ _ => fun n => (3, n)
    | sys_ioctl _ _ _ => fun n => (0, n)
    | sys_close _ => fun n =>
        match n with
        | O => (0, O)
        | S n' => (-1, n')
        end
    | AI_LOG_SYS_ERROR _ _ => fun n => (tt, n)
    | ifaceUp _ _ => fun n => (true, n)
    | ifaceDown _ _ => fun n => (true, n)
    | getIfaceMAC _ _ => fun n => (mac_zero, n)
    | setIfaceMAC _ _ _ => fun n => (true, n)
    end.

(** [open] itself fails. *)
Definition no_tun_kernel : Script :=
  {| open_ret := -1; ioctl_ret := 0; close_ret := 0; link_ret := true;
     mac := mac_zero |}.

(** ** Basic facts *)

Lemma isValid_eq (s : TapInterface) : isValid s = Ret (mFd s >=? 0, s).
Proof. reflexivity. Qed.

Lemma valid_iff (s : TapInterface) : valid s <-> 0 <= mFd s.
Proof.
  unfold valid. rewrite isValid_eq. split.
  - intros E. inversion E as [E']. rewrite Z.geb_leb in E'.
    now apply Z.leb_le.
  - intros L. apply Z.leb_le in L. rewrite <- Z.geb_leb in L.
    now rewrite L.
Qed.

Lemma invalid_iff (s : TapInterface) : invalid s <-> mFd s < 0.
Proof.
  unfold invalid. rewrite isValid_eq. split.
  - intros E. inversion E as [E']. rewrite Z.geb_leb in E'.
    apply Z.leb_gt in E'. exact E'.
  - intros L. apply Z.leb_gt in L. rewrite <- Z.geb_leb in L.
    now rewrite L.
Qed.

Lemma valid_geb (s : TapInterface) : valid s -> (mFd s >=? 0) = true.
Proof. intros V. apply valid_iff in V. rewrite Z.geb_leb. now apply Z.leb_le. Qed.

Lemma valid_ltb (s : TapInterface) : valid s -> (mFd s <? 0) = false.
Proof. intros V. apply valid_iff in V. apply Z.ltb_ge. exact V. Qed.

Lemma invalid_geb (s : TapInterface) : invalid s -> (mFd s >=? 0) = false.
Proof. intros V. apply invalid_iff in V. rewrite Z.geb_leb. now apply Z.leb_gt. Qed.

Lemma invalid_ltb (s : TapInterface) : invalid s -> (mFd s <? 0) = true.
Proof. intros V. apply invalid_iff in V. now apply Z.ltb_lt. Qed.

Lemma valid_or_invalid (s : TapInterface) : {valid s} + {invalid s}.
Proof.
  destruct (Z_lt_le_dec (mFd s) 0) as [L | L].
  - right. now apply invalid_iff.
  - left. now apply valid_iff.
Qed.

Lemma neqb_true (r : Z) : r <> 0 -> negb (r =? 0) = true.
Proof. intros N. apply Z.eqb_neq in N. now rewrite N. Qed.

(** The name asked of the kernel fits [IFNAMSIZ] with its terminator. *)
Lemma tap_ifreq_name :
  ifr_name tap_ifreq = (list_byte_of_string TAP_NAME ++ repeat x00 6)%list
  /\ List.length (ifr_name tap_ifreq) = Sys.IFNAMSIZ.
Proof. split; reflexivity. Qed.

Lemma tap_ifreq_flags : ifr_flags tap_ifreq = 12290.   (* 0x3002 *)
Proof. reflexivity. Qed.

(** Unfold one stretch of a run, leaving the arguments of the calls as the
    source writes them; then feed the answer a hypothesis gives. *)
Ltac run :=
  cbn -[Z.lor Sys.O_CLOEXEC Sys.O_RDWR Sys.TUNSETIFF tap_ifreq TAP_NAME].

Ltac answer H := rewrite H; run.

Section Run.
Context {W : Type} (h : handler W).

Lemma exec_Ret {R : Type} (r : R) (s : TapInterface) (w : W) :
  exec h (Ret (r, s)) w = mk_Outcome r s w [].
Proof. reflexivity. Qed.

Lemma exec_Vis {R X : Type} (c : call X) (k : X -> Prog (R * TapInterface))
  (w : W) (x : X) (w' : W) :
  h _ c w = (x, w') ->
  exec h (Vis c k) w = logged (Event c x) (exec h (k x) w').
Proof. intros E. simpl. now rewrite E. Qed.

Lemma exec_pbind {A B : Type} (p : Prog (A * TapInterface))
  (f : A -> TapM B) (w : W) :
  exec h (pbind p (fun r => f (fst r) (snd r))) w
  = and_then (exec h p w)
      (exec h (f (retval (exec h p w)) (self (exec h p w)))
         (world (exec h p w))).
Proof.
  revert w. induction p as [r | X c k IH]; intros w.
  - simpl. now destruct (exec h (f (fst r) (snd r)) w).
  - simpl. rewrite IH. reflexivity.
Qed.

Lemma exec_bind {A B : Type} (m : TapM A) (f : A -> TapM B)
  (s : TapInterface) (w : W) :
  exec h (bind m f s) w
  = and_then (exec h (m s) w)
      (exec h (f (retval (exec h (m s) w)) (self (exec h (m s) w)))
         (world (exec h (m s) w))).
Proof. apply exec_pbind. Qed.

(** A [createTapInterface] that reports success leaves a descriptor. *)
Lemma create_success_valid (s : TapInterface) (w : W) :
  retval (exec h (createTapInterface s) w) = true ->
  valid (self (exec h (createTapInterface s) w)).
Proof.
  unfold createTapInterface, bind. cbn.
  destruct (mFd s >=? 0) eqn:G; cbn.
  - intros _. apply valid_iff. rewrite Z.geb_leb in G. now apply Z.leb_le.
  - destruct (h _ (sys_open _ _) w) as [fd w1]. cbn.
    destruct (fd <? 0) eqn:L; cbn; [discriminate |].
    destruct (h _ (sys_ioctl _ _ _) w1) as [r w2]. cbn.
    destruct (r =? 0); cbn; [| discriminate].
    intros _. apply valid_iff. cbn. now apply Z.ltb_ge.
Qed.

(** On a valid handle [createTapInterface] makes no call at all. *)
Lemma create_valid (s : TapInterface) :
  valid s -> createTapInterface s = Ret (true, s).
Proof.
  intros V. unfold createTapInterface, bind. cbn.
  now rewrite (valid_geb s V).
Qed.

End Run.

(** ** destroyTapInterface when close fails *)

(** C1, as the spec has it, does not hold.  On the handle with descriptor 3,
    with a kernel whose [close] answers -1, [destroyTapInterface] returns
    false after [close(3)] and the log line, and the handle still holds
    descriptor 3: [isValid] answers true. *)
Lemma destroy_close_error_keeps_descriptor :
  exec scripted (destroyTapInterface {| mFd := 3 |}) failing_close_kernel
  = {| retval := false;
       self := {| mFd := 3 |};
       world := failing_close_kernel;
       calls := [Event (sys_close 3) (-1);
                 Event (AI_LOG_SYS_ERROR "failed to close the tap fd" []) tt] |}
  /\ valid {| mFd := 3 |}
  /\ ~ destroy_failure_invalidates.
Proof.
  split; [reflexivity |]. split; [reflexivity |].
  intros C.
  destruct (C Script scripted failing_close_kernel {| mFd := 3 |})
    as (_ & _ & N).
  - reflexivity.
  - cbn. discriminate.
  - apply N. reflexivity.
Qed.

(** C1 (amended): on a valid handle, when [close] of the descriptor reports
    an error, [destroyTapInterface] makes exactly that [close] call on the
    handle's descriptor, logs, and returns failure; the handle is left as it
    was, so the descriptor is retained and [isValid] still answers true. *)
Theorem destroy_close_error
  (W : Type) (h : handler W) (w w1 w2 : W) (s : TapInterface) (c : Z) :
  valid s ->
  h _ (sys_close (mFd s)) w = (c, w1) ->
  c <> 0 ->
  h _ (AI_LOG_SYS_ERROR "failed to close the tap fd" []) w1 = (tt, w2) ->
  exec h (destroyTapInterface s) w
  = {| retval := false;
       self := s;
       world := w2;
       calls := [Event (sys_close (mFd s)) c;
                 Event (AI_LOG_SYS_ERROR "failed to close the tap fd" []) tt] |}
  /\ valid (self (exec h (destroyTapInterface s) w)).
Proof.
  intros V Hclose Hc Hlog.
  assert (E : exec h (destroyTapInterface s) w
              = {| retval := false; self := s; world := w2;
                   calls := [Event (sys_close (mFd s)) c;
                             Event (AI_LOG_SYS_ERROR
                                      "failed to close the tap fd" []) tt] |}).
  { unfold destroyTapInterface, bind. run.
    answer (valid_geb s V). answer Hclose. answer (neqb_true c Hc).
    now rewrite Hlog. }
  split; [exact E |]. rewrite E. exact V.
Qed.

Lemma destroy_close_error_witness :
  exec scripted (destroyTapInterface {| mFd := 3 |}) failing_close_kernel
  = {| retval := false;
       self := {| mFd := 3 |};
       world := failing_close_kernel;
       calls := [Event (sys_close 3) (-1);
                 Event (AI_LOG_SYS_ERROR "failed to close the tap fd" []) tt] |}
  /\ valid (self (exec scripted (destroyTapInterface {| mFd := 3 |})
                   failing_close_kernel)).
Proof.
  apply (destroy_close_error Script scripted failing_close_kernel
           failing_close_kernel failing_close_kernel {| mFd := 3 |} (-1)).
  - reflexivity.
  - reflexivity.
  - lia.
  - reflexivity.
Defined.

(** ** createTapInterface when the kernel refuses the device *)

(** C2: on an invalid handle, when [open] of the control path gives a
    descriptor [fd] and the TUNSETIFF request on it fails,
    [createTapInterface] logs, closes that same [fd], returns failure and
    leaves the handle invalid, its descriptor reset to -1.  The calls made
    are exactly open, ioctl, log, close. *)
Theorem create_ioctl_failure
  (W : Type) (h : handler W) (w w1 w2 w3 w4 : W) (s : TapInterface)
  (fd r c : Z) :
  invalid s ->
  h _ (sys_open "/dev/net/tun" (Z.lor Sys.O_CLOEXEC Sys.O_RDWR)) w = (fd, w1) ->
  0 <= fd ->
  h _ (sys_ioctl fd Sys.TUNSETIFF tap_ifreq) w1 = (r, w2) ->
  r <> 0 ->
  h _ (AI_LOG_SYS_ERROR "failed to create tap device '%s'" [TAP_NAME]) w2
  = (tt, w3) ->
  h _ (sys_close fd) w3 = (c, w4) ->
  exec h (createTapInterface s) w
  = {| retval := false;
       self := {| mFd := -1 |};
       world := w4;
       calls :=
         [Event (sys_open "/dev/net/tun" (Z.lor Sys.O_CLOEXEC Sys.O_RDWR)) fd;
          Event (sys_ioctl fd Sys.TUNSETIFF tap_ifreq) r;
          Event (AI_LOG_SYS_ERROR "failed to create tap device '%s'"
                                  [TAP_NAME]) tt;
          Event (sys_close fd) c] |}
  /\ invalid (self (exec h (createTapInterface s) w)).
Proof.
  intros V Hopen Hfd Hioctl Hr Hlog Hclose.
  assert (L : (fd <? 0) = false) by now apply Z.ltb_ge.
  assert (E : exec h (createTapInterface s) w
              = {| retval := false; self := {| mFd := -1 |}; world := w4;
                   calls :=
                     [Event (sys_open "/dev/net/tun"
                               (Z.lor Sys.O_CLOEXEC Sys.O_RDWR)) fd;
                      Event (sys_ioctl fd Sys.TUNSETIFF tap_ifreq) r;
                      Event (AI_LOG_SYS_ERROR
                               "failed to create tap device '%s'"
                               [TAP_NAME]) tt;
                      Event (sys_close fd) c] |}).
  { unfold createTapInterface, bind. run.
    answer (invalid_geb s V). answer Hopen. answer L. answer Hioctl.
    answer (neqb_true r Hr). answer Hlog.
    rewrite Hclose. reflexivity. }
  split; [exact E |]. rewrite E. reflexivity.
Qed.

Lemma create_ioctl_failure_witness :
  exec scripted (createTapInterface TapInterface_new) refusing_kernel
  = {| retval := false;
       self := {| mFd := -1 |};
       world := refusing_kernel;
       calls :=
         [Event (sys_open "/dev/net/tun" (Z.lor Sys.O_CLOEXEC Sys.O_RDWR)) 3;
          Event (sys_ioctl 3 Sys.TUNSETIFF tap_ifreq) (-1);
          Event (AI_LOG_SYS_ERROR "failed to create tap device '%s'"
                                  [TAP_NAME]) tt;
          Event (sys_close 3) 0] |}
  /\ invalid (self (exec scripted (createTapInterface TapInterface_new)
                     refusing_kernel)).
Proof.
  apply (create_ioctl_failure Script scripted refusing_kernel refusing_kernel
           refusing_kernel refusing_kernel refusing_kernel TapInterface_new
           3 (-1) 0).
  - reflexivity.
  - reflexivity.
  - lia.
  - reflexivity.
  - lia.
  - reflexivity.
  - reflexivity.
Defined.

(** ** createTapInterface on a handle that is already valid *)

(** C3: on a valid handle [createTapInterface] returns true at once: the
    program is a bare return of the unchanged handle, so in any environment
    it makes no call (no open, no ioctl) and leaves the world alone.  Hence
    whenever a first [createTapInterface] succeeds, a second one right after
    it changes nothing: the two calls in sequence give the outcome of the
    first alone. *)
Theorem create_idempotent
  (W : Type) (h : handler W) (w : W) (s : TapInterface) :
  (valid s ->
   createTapInterface s = Ret (true, s)
   /\ exec h (createTapInterface s) w
      = {| retval := true; self := s; world := w; calls := [] |})
  /\ (retval (exec h (createTapInterface s) w) = true ->
      exec h ((createTapInterface ;; createTapInterface) s) w
      = exec h (createTapInterface s) w).
Proof.
  split.
  - intros V. rewrite (create_valid s V). split; reflexivity.
  - intros T. rewrite exec_bind.
    pose proof (create_success_valid h s w T) as V.
    rewrite (create_valid _ V). rewrite exec_Ret.
    destruct (exec h (createTapInterface s) w) as [b s' w' tr].
    cbn in T. subst b. unfold and_then. cbn. now rewrite app_nil_r.
Qed.

Lemma create_idempotent_witness :
  (createTapInterface {| mFd := 3 |} = Ret (true, {| mFd := 3 |})
   /\ exec scripted (createTapInterface {| mFd := 3 |}) good_kernel
      = {| retval := true; self := {| mFd := 3 |}; world := good_kernel;
           calls := [] |})
  /\ exec scripted ((createTapInterface ;; createTapInterface)
                      TapInterface_new) good_kernel
     = exec scripted (createTapInterface TapInterface_new) good_kernel.
Proof.
  split.
  - apply (proj1 (create_idempotent Script scripted good_kernel
                    {| mFd := 3 |})).
    reflexivity.
  - apply (proj2 (create_idempotent Script scripted good_kernel
                    TapInterface_new)).
    reflexivity.
Defined.

(** ** up and down *)

(** C4: on an invalid handle [up] and [down] are bare returns of false with
    the handle unchanged: in any environment they make no call, so nothing
    reaches the Netlink object, and the world is left alone. *)
Theorem up_down_invalid
  (W : Type) (h : handler W) (w : W) (s : TapInterface) (netlink : Netlink) :
  invalid s ->
  (up netlink s = Ret (false, s)
   /\ exec h (up netlink s) w
      = {| retval := false; self := s; world := w; calls := [] |})
  /\ (down netlink s = Ret (false, s)
      /\ exec h (down netlink s) w
         = {| retval := false; self := s; world := w; calls := [] |}).
Proof.
  intros V.
  assert (U : up netlink s = Ret (false, s)).
  { unfold up, bind. run. now rewrite (invalid_ltb s V). }
  assert (D : down netlink s = Ret (false, s)).
  { unfold down, bind. run. now rewrite (invalid_ltb s V). }
  rewrite U, D. repeat split.
Qed.

Lemma up_down_invalid_witness :
  (up (NetlinkObj 0) TapInterface_new = Ret (false, TapInterface_new)
   /\ exec scripted (up (NetlinkObj 0) TapInterface_new) good_kernel
      = {| retval := false; self := TapInterface_new; world := good_kernel;
           calls := [] |})
  /\ (down (NetlinkObj 0) TapInterface_new = Ret (false, TapInterface_new)
      /\ exec scripted (down (NetlinkObj 0) TapInterface_new) good_kernel
         = {| retval := false; self := TapInterface_new;
              world := good_kernel; calls := [] |}).
Proof.
  apply (up_down_invalid Script scripted good_kernel TapInterface_new
           (NetlinkObj 0)).
  reflexivity.
Defined.

(** C5: on a valid handle, whatever the Netlink object answers, [up] makes
    exactly one call, [ifaceUp] on the given object with the name
    "dobby_tap0", and returns the answer as it is; [down] does the same with
    [ifaceDown].  The handle is unchanged. *)
Theorem up_down_valid
  (W : Type) (h : handler W) (w wu wd : W) (s : TapInterface)
  (netlink : Netlink) (bu bd : bool) :
  valid s ->
  h _ (ifaceUp netlink "dobby_tap0") w = (bu, wu) ->
  h _ (ifaceDown netlink "dobby_tap0") w = (bd, wd) ->
  exec h (up netlink s) w
  = {| retval := bu; self := s; world := wu;
       calls := [Event (ifaceUp netlink "dobby_tap0") bu] |}
  /\ exec h (down netlink s) w
     = {| retval := bd; self := s; world := wd;
          calls := [Event (ifaceDown netlink "dobby_tap0") bd] |}.
Proof.
  intros V Hu Hd. split.
  - unfold up, bind. run. answer (valid_ltb s V).
    change TAP_NAME with "dobby_tap0". now rewrite Hu.
  - unfold down, bind. run. answer (valid_ltb s V).
    change TAP_NAME with "dobby_tap0". now rewrite Hd.
Qed.

Lemma up_down_valid_witness :
  exec scripted (up (NetlinkObj 0) {| mFd := 3 |}) failing_close_kernel
  = {| retval := false; self := {| mFd := 3 |};
       world := failing_close_kernel;
       calls := [Event (ifaceUp (NetlinkObj 0) "dobby_tap0") false] |}
  /\ exec scripted (down (NetlinkObj 0) {| mFd := 3 |}) failing_close_kernel
     = {| retval := false; self := {| mFd := 3 |};
          world := failing_close_kernel;
          calls := [Event (ifaceDown (NetlinkObj 0) "dobby_tap0") false] |}.
Proof.
  apply (up_down_valid Script scripted failing_close_kernel
           failing_close_kernel failing_close_kernel {| mFd := 3 |}
           (NetlinkObj 0) false false).
  - reflexivity.
  - reflexivity.
  - reflexivity.
Defined.

(** ** What success of create and destroy leaves behind *)

(** C6: from any handle and in any environment, if [createTapInterface]
    returns true then [isValid] answers true on the handle it leaves and
    [name] answers "dobby_tap0"; if [destroyTapInterface] returns true then
    [isValid] answers false on the handle it leaves. *)
Theorem create_destroy_success
  (W : Type) (h : handler W) (w : W) (s : TapInterface) :
  (retval (exec h (createTapInterface s) w) = true ->
   valid (self (exec h (createTapInterface s) w))
   /\ name (self (exec h (createTapInterface s) w))
      = Ret ("dobby_tap0", self (exec h (createTapInterface s) w)))
  /\ (retval (exec h (destroyTapInterface s) w) = true ->
      invalid (self (exec h (destroyTapInterface s) w))).
Proof.
  split.
  - intros T. split; [now apply create_success_valid | reflexivity].
  - unfold destroyTapInterface, bind. run.
    destruct (mFd s >=? 0); run.
    + destruct (h _ (sys_close _) w) as [c w1]. run.
      destruct (c =? 0); run; [reflexivity | discriminate].
    + reflexivity.
Qed.

Lemma create_destroy_success_witness :
  (valid (self (exec scripted (createTapInterface TapInterface_new)
                  good_kernel))
   /\ name (self (exec scripted (createTapInterface TapInterface_new)
                    good_kernel))
      = Ret ("dobby_tap0",
             self (exec scripted (createTapInterface TapInterface_new)
                     good_kernel)))
  /\ invalid (self (exec scripted (destroyTapInterface {| mFd := 3 |})
                      good_kernel)).
Proof.
  split.
  - apply (proj1 (create_destroy_success Script scripted good_kernel
                    TapInterface_new)).
    reflexivity.
  - apply (proj2 (create_destroy_success Script scripted good_kernel
                    {| mFd := 3 |})).
    reflexivity.
Defined.

(** ** destroyTapInterface on an invalid handle *)

(** C7: on an invalid handle (never created, or destroyed before)
    [destroyTapInterface] is a bare return of true: in any environment it
    makes no call, so nothing is closed, and [isValid] still answers false
    on the handle it leaves. *)
Theorem destroy_invalid
  (W : Type) (h : handler W) (w : W) (s : TapInterface) :
  invalid s ->
  destroyTapInterface s = Ret (true, {| mFd := -1 |})
  /\ exec h (destroyTapInterface s) w
     = {| retval := true; self := {| mFd := -1 |}; world := w; calls := [] |}
  /\ invalid (self (exec h (destroyTapInterface s) w)).
Proof.
  intros V.
  assert (D : destroyTapInterface s = Ret (true, {| mFd := -1 |})).
  { unfold destroyTapInterface, bind. run. now rewrite (invalid_geb s V). }
  rewrite D. repeat split.
Qed.

Lemma destroy_invalid_witness :
  destroyTapInterface TapInterface_new = Ret (true, {| mFd := -1 |})
  /\ exec scripted (destroyTapInterface TapInterface_new) good_kernel
     = {| retval := true; self := {| mFd := -1 |}; world := good_kernel;
          calls := [] |}
  /\ invalid (self (exec scripted (destroyTapInterface TapInterface_new)
                      good_kernel)).
Proof.
  apply (destroy_invalid Script scripted good_kernel TapInterface_new).
  reflexivity.
Defined.

(** ** The MAC address operations *)

(** C8: on every handle, valid or not, [macAddress] is the single call
    [getIfaceMAC] on the given Netlink object with the name "dobby_tap0",
    whose six bytes it returns, and [setMACAddress] is the single call
    [setIfaceMAC] with that name and the given address, whose boolean it
    returns.  Neither looks at the descriptor. *)
Theorem mac_delegation
  (W : Type) (h : handler W) (w : W) (s : TapInterface) (netlink : Netlink)
  (address : MacAddress) :
  (macAddress netlink s
   = Vis (getIfaceMAC netlink "dobby_tap0") (fun m => Ret (m, s))
   /\ exec h (macAddress netlink s) w
      = {| retval := fst (h _ (getIfaceMAC netlink "dobby_tap0") w);
           self := s;
           world := snd (h _ (getIfaceMAC netlink "dobby_tap0") w);
           calls := [Event (getIfaceMAC netlink "dobby_tap0")
                       (fst (h _ (getIfaceMAC netlink "dobby_tap0") w))] |})
  /\ (setMACAddress netlink address s
      = Vis (setIfaceMAC netlink "dobby_tap0" address) (fun b => Ret (b, s))
      /\ exec h (setMACAddress netlink address s) w
         = {| retval := fst (h _ (setIfaceMAC netlink "dobby_tap0" address) w);
              self := s;
              world := snd (h _ (setIfaceMAC netlink "dobby_tap0" address) w);
              calls := [Event (setIfaceMAC netlink "dobby_tap0" address)
                          (fst (h _ (setIfaceMAC netlink "dobby_tap0" address)
                                  w))] |}).
Proof. repeat split. Qed.

(** On a handle that was never created both operations still reach the
    Netlink object. *)
Example mac_on_new_handle :
  calls (exec scripted (macAddress (NetlinkObj 0) TapInterface_new)
           good_kernel)
  = [Event (getIfaceMAC (NetlinkObj 0) "dobby_tap0") mac_zero]
  /\ calls (exec scripted
              (setMACAddress (NetlinkObj 0) (x02, x00, x00, x00, x00, x01)
                 TapInterface_new) good_kernel)
     = [Event (setIfaceMAC (NetlinkObj 0) "dobby_tap0"
                 (x02, x00, x00, x00, x00, x01)) true].
Proof. split; reflexivity. Qed.

(** ** The queries *)

(** C9: [isValid] and [name] are bare returns: in any environment they make
    no call and leave handle and world as they were.  [isValid] answers
    [mFd >= 0], which is true exactly when the descriptor is not negative;
    [name] answers "dobby_tap0" on every handle, the never-created one
    included. *)
Theorem isValid_name_pure
  (W : Type) (h : handler W) (w : W) (s : TapInterface) :
  (exec h (isValid s) w
   = {| retval := (mFd s >=? 0); self := s; world := w; calls := [] |}
   /\ ((mFd s >=? 0) = true <-> 0 <= mFd s))
  /\ exec h (name s) w
     = {| retval := "dobby_tap0"; self := s; world := w; calls := [] |}
  /\ exec h (name TapInterface_new) w
     = {| retval := "dobby_tap0"; self := TapInterface_new; world := w;
          calls := [] |}.
Proof.
  repeat split.
  - rewrite Z.geb_leb. apply Z.leb_le.
  - rewrite Z.geb_leb. apply Z.leb_le.
Qed.

(** ** The descriptor under the link operations *)

(** C10: in any environment and on any handle, [up], [down], [macAddress]
    and [setMACAddress] leave the handle exactly as it was, whatever the
    Netlink object answers: the descriptor, and with it what [isValid]
    answers, is the same after as before. *)
Theorem link_ops_keep_descriptor
  (W : Type) (h : handler W) (w : W) (s : TapInterface) (netlink : Netlink)
  (address : MacAddress) :
  self (exec h (up netlink s) w) = s
  /\ self (exec h (down netlink s) w) = s
  /\ self (exec h (macAddress netlink s) w) = s
  /\ self (exec h (setMACAddress netlink address s) w) = s.
Proof.
  repeat split.
  - unfold up, bind. run. now destruct (mFd s <? 0).
  - unfold down, bind. run. now destruct (mFd s <? 0).
Qed.

(** * Further behaviour of the methods *)

Section Outcomes.
Context {W : Type} (h : handler W).

(** Dropping the result of a method leaves the rest of its outcome. *)
Lemma exec_discard {A : Type} (m : TapM A) (s : TapInterface) (w : W) :
  exec h ((m ;; ret tt) s) w
  = {| retval := tt;
       self := self (exec h (m s) w);
       world := world (exec h (m s) w);
       calls := calls (exec h (m s) w) |}.
Proof.
  rewrite exec_bind. unfold and_then. cbn. now rewrite app_nil_r.
Qed.

(** The four ways a run of [createTapInterface] can go. *)
Lemma create_outcome (s : TapInterface) (w : W) :
  (valid s
   /\ exec h (createTapInterface s) w = mk_Outcome true s w [])
  \/ (invalid s /\ exists (r : Z) (w' : W),
         r < 0
         /\ exec h (createTapInterface s) w
            = mk_Outcome false {| mFd := r |} w'
                [Event (sys_open "/dev/net/tun"
                          (Z.lor Sys.O_CLOEXEC Sys.O_RDWR)) r;
                 Event (AI_LOG_SYS_ERROR "failed to open '/dev/net/tun'" [])
                   tt])
  \/ (invalid s /\ exists (fd : Z) (w' : W),
         0 <= fd
         /\ exec h (createTapInterface s) w
            = mk_Outcome true {| mFd := fd |} w'
                [Event (sys_open "/dev/net/tun"
                          (Z.lor Sys.O_CLOEXEC Sys.O_RDWR)) fd;
                 Event (sys_ioctl fd Sys.TUNSETIFF tap_ifreq) 0])
  \/ (invalid s /\ exists (fd r c : Z) (w' : W),
         0 <= fd /\ r <> 0
         /\ exec h (createTapInterface s) w
            = mk_Outcome false {| mFd := -1 |} w'
                [Event (sys_open "/dev/net/tun"
                          (Z.lor Sys.O_CLOEXEC Sys.O_RDWR)) fd;
                 Event (sys_ioctl fd Sys.TUNSETIFF tap_ifreq) r;
                 Event (AI_LOG_SYS_ERROR "failed to create tap device '%s'"
                          [TAP_NAME]) tt;
                 Event (sys_close fd) c]).
Proof.
  destruct (valid_or_invalid s) as [V | V].
  { left. split; [exact V |]. now rewrite (create_valid s V). }
  right. unfold createTapInterface, bind. run. answer (invalid_geb s V).
  destruct (h _ (sys_open _ _) w) as [fd w1]. run.
  destruct (fd <? 0) eqn:L; run.
  - left. split; [exact V |].
    destruct (h _ (AI_LOG_SYS_ERROR _ _) w1) as [[] w2]. run.
    exists fd, w2. split; [now apply Z.ltb_lt | reflexivity].
  - right. apply Z.ltb_ge in L.
    destruct (h _ (sys_ioctl _ _ _) w1) as [r w2]. run.
    destruct (r =? 0) eqn:E; run.
    + left. split; [exact V |]. apply Z.eqb_eq in E. subst r.
      exists fd, w2. split; [exact L | reflexivity].
    + right. split; [exact V |]. apply Z.eqb_neq in E.
      destruct (h _ (AI_LOG_SYS_ERROR _ _) w2) as [[] w3]. run.
      destruct (h _ (sys_close _) w3) as [c w4]. run.
      exists fd, r, c, w4. repeat split; assumption.
Qed.

(** The three ways a run of [destroyTapInterface] can go. *)
Lemma destroy_outcome (s : TapInterface) (w : W) :
  (invalid s
   /\ exec h (destroyTapInterface s) w
      = mk_Outcome true {| mFd := -1 |} w [])
  \/ (valid s /\ exists (w' : W),
         exec h (destroyTapInterface s) w
         = mk_Outcome true {| mFd := -1 |} w' [Event (sys_close (mFd s)) 0])
  \/ (valid s /\ exists (c : Z) (w' : W),
         c <> 0
         /\ exec h (destroyTapInterface s) w
            = mk_Outcome false s w'
                [Event (sys_close (mFd s)) c;
                 Event (AI_LOG_SYS_ERROR "failed to close the tap fd" []) tt]).
Proof.
  unfold destroyTapInterface, bind. run.
  destruct (valid_or_invalid s) as [V | V].
  - right. answer (valid_geb s V).
    destruct (h _ (sys_close _) w) as [c w1]. run.
    destruct (c =? 0) eqn:E; run.
    + left. split; [exact V |]. apply Z.eqb_eq in E. subst c. now exists w1.
    + right. split; [exact V |]. apply Z.eqb_neq in E.
      destruct (h _ (AI_LOG_SYS_ERROR _ _) w1) as [[] w2]. run.
      exists c, w2. split; [exact E | now destruct s].
  - left. answer (invalid_geb s V). split; [exact V | reflexivity].
Qed.

End Outcomes.

Lemma geb_nonneg (z : Z) : 0 <= z -> (z >=? 0) = true.
Proof. intros L. rewrite Z.geb_leb. now apply Z.leb_le. Qed.

Lemma geb_neg (z : Z) : z < 0 -> (z >=? 0) = false.
Proof. intros L. rewrite Z.geb_leb. now apply Z.leb_gt. Qed.

Lemma valid_not_invalid (s : TapInterface) : valid s -> invalid s -> False.
Proof.
  intros V I. apply valid_iff in V. apply invalid_iff in I. lia.
Qed.

(** ** createTapInterface: the remaining paths *)

(** X1: on an invalid handle, when [open] of "/dev/net/tun" answers a
    negative value, [createTapInterface] logs and returns false.  It makes no
    [ioctl] and no [close]: the calls are exactly open and the log line.  The
    handle keeps the negative answer of [open] as its descriptor, so it is
    invalid. *)
Theorem create_open_failure
  (W : Type) (h : handler W) (w w1 w2 : W) (s : TapInterface) (r : Z) :
  invalid s ->
  h _ (sys_open "/dev/net/tun" (Z.lor Sys.O_CLOEXEC Sys.O_RDWR)) w = (r, w1) ->
  r < 0 ->
  h _ (AI_LOG_SYS_ERROR "failed to open '/dev/net/tun'" []) w1 = (tt, w2) ->
  exec h (createTapInterface s) w
  = {| retval := false;
       self := {| mFd := r |};
       world := w2;
       calls :=
         [Event (sys_open "/dev/net/tun" (Z.lor Sys.O_CLOEXEC Sys.O_RDWR)) r;
          Event (AI_LOG_SYS_ERROR "failed to open '/dev/net/tun'" []) tt] |}
  /\ invalid {| mFd := r |}.
Proof.
  intros V Hopen Hr Hlog. split.
  - unfold createTapInterface, bind. run.
    answer (invalid_geb s V). answer Hopen.
    assert (L : (r <? 0) = true) by now apply Z.ltb_lt.
    answer L. now rewrite Hlog.
  - now apply invalid_iff.
Qed.

Lemma create_open_failure_witness :
  exec scripted (createTapInterface TapInterface_new) no_tun_kernel
  = {| retval := false;
       self := {| mFd := -1 |};
       world := no_tun_kernel;
       calls :=
         [Event (sys_open "/dev/net/tun" (Z.lor Sys.O_CLOEXEC Sys.O_RDWR))
            (-1);
          Event (AI_LOG_SYS_ERROR "failed to open '/dev/net/tun'" []) tt] |}
  /\ invalid {| mFd := -1 |}.
Proof.
  apply (create_open_failure Script scripted no_tun_kernel no_tun_kernel
           no_tun_kernel TapInterface_new (-1)).
  - reflexivity.
  - reflexivity.
  - lia.
  - reflexivity.
Defined.

(** X2: on an invalid handle, when [open] answers a descriptor [fd] and the
    TUNSETIFF request on it answers 0, [createTapInterface] returns true and
    the handle holds [fd].  The calls are exactly open and ioctl: nothing is
    closed or logged.  The request carries the flags
    IFF_TAP | IFF_NO_PI | IFF_ONE_QUEUE and the name "dobby_tap0" padded
    with NUL to IFNAMSIZ bytes. *)
Theorem create_success
  (W : Type) (h : handler W) (w w1 w2 : W) (s : TapInterface) (fd : Z) :
  invalid s ->
  h _ (sys_open "/dev/net/tun" (Z.lor Sys.O_CLOEXEC Sys.O_RDWR)) w = (fd, w1) ->
  0 <= fd ->
  h _ (sys_ioctl fd Sys.TUNSETIFF tap_ifreq) w1 = (0, w2) ->
  exec h (createTapInterface s) w
  = {| retval := true;
       self := {| mFd := fd |};
       world := w2;
       calls :=
         [Event (sys_open "/dev/net/tun" (Z.lor Sys.O_CLOEXEC Sys.O_RDWR)) fd;
          Event (sys_ioctl fd Sys.TUNSETIFF
                   {| ifr_name :=
                        (list_byte_of_string "dobby_tap0" ++ repeat x00 6)%list;
                      ifr_flags := 12290 |}) 0] |}.
Proof.
  intros V Hopen Hfd Hioctl.
  change {| ifr_name := (list_byte_of_string "dobby_tap0" ++ repeat x00 6)%list;
            ifr_flags := 12290 |} with tap_ifreq.
  unfold createTapInterface, bind. run.
  answer (invalid_geb s V). answer Hopen.
  assert (L : (fd <? 0) = false) by now apply Z.ltb_ge.
  answer L. now rewrite Hioctl.
Qed.

Lemma create_success_witness :
  exec scripted (createTapInterface TapInterface_new) good_kernel
  = {| retval := true;
       self := {| mFd := 3 |};
       world := good_kernel;
       calls :=
         [Event (sys_open "/dev/net/tun" (Z.lor Sys.O_CLOEXEC Sys.O_RDWR)) 3;
          Event (sys_ioctl 3 Sys.TUNSETIFF
                   {| ifr_name :=
                        (list_byte_of_string "dobby_tap0" ++ repeat x00 6)%list;
                      ifr_flags := 12290 |}) 0] |}.
Proof.
  apply (create_success Script scripted good_kernel good_kernel good_kernel
           TapInterface_new 3).
  - reflexivity.
  - reflexivity.
  - lia.
  - reflexivity.
Defined.

(** X3: in any environment and from any handle, the boolean
    [createTapInterface] returns tells whether the handle is valid
    afterwards: true exactly when [isValid] then answers true, false exactly
    when it answers false.  A failed create never leaves a descriptor. *)
Theorem create_reports_validity
  (W : Type) (h : handler W) (w : W) (s : TapInterface) :
  (retval (exec h (createTapInterface s) w) = true
   <-> valid (self (exec h (createTapInterface s) w)))
  /\ (retval (exec h (createTapInterface s) w) = false
      <-> invalid (self (exec h (createTapInterface s) w))).
Proof.
  destruct (create_outcome h s w)
    as [[V E] | [[V (r & w' & L & E)] | [[V (fd & w' & L & E)]
       | [V (fd & r & c & w' & L & N & E)]]]];
    rewrite E; cbn [retval self].
  - split; split; try reflexivity; try discriminate; try (intros _; exact V).
    intros I. exfalso. exact (valid_not_invalid s V I).
  - assert (I : invalid {| mFd := r |}) by now apply invalid_iff.
    split; split; try reflexivity; try discriminate; try (intros _; exact I).
    intros V'. exfalso. exact (valid_not_invalid _ V' I).
  - assert (V' : valid {| mFd := fd |}) by now apply valid_iff.
    split; split; try reflexivity; try discriminate; try (intros _; exact V').
    intros I. exfalso. exact (valid_not_invalid _ V' I).
  - split; split; try reflexivity; try discriminate.
Qed.

(** ** destroyTapInterface: the remaining paths *)

(** X4: in any environment and from any handle, the boolean
    [destroyTapInterface] returns tells whether the handle is invalid
    afterwards: true exactly when [isValid] then answers false, and false
    exactly when it still answers true. *)
Theorem destroy_reports_invalidity
  (W : Type) (h : handler W) (w : W) (s : TapInterface) :
  (retval (exec h (destroyTapInterface s) w) = true
   <-> invalid (self (exec h (destroyTapInterface s) w)))
  /\ (retval (exec h (destroyTapInterface s) w) = false
      <-> valid (self (exec h (destroyTapInterface s) w))).
Proof.
  destruct (destroy_outcome h s w)
    as [[V E] | [[V (w' & E)] | [V (c & w' & N & E)]]];
    rewrite E; cbn [retval self].
  - split; split; try reflexivity; try discriminate.
  - split; split; try reflexivity; try discriminate.
  - split; split; try reflexivity; try discriminate; try (intros _; exact V).
    intros I. exfalso. exact (valid_not_invalid s V I).
Qed.

(** X5: on a valid handle, when [close] of the descriptor answers 0,
    [destroyTapInterface] makes exactly that one call, on the handle's own
    descriptor, logs nothing, resets the descriptor to -1 and returns
    true. *)
Theorem destroy_valid_close_ok
  (W : Type) (h : handler W) (w w1 : W) (s : TapInterface) :
  valid s ->
  h _ (sys_close (mFd s)) w = (0, w1) ->
  exec h (destroyTapInterface s) w
  = {| retval := true;
       self := {| mFd := -1 |};
       world := w1;
       calls := [Event (sys_close (mFd s)) 0] |}.
Proof.
  intros V Hclose. unfold destroyTapInterface, bind. run.
  answer (valid_geb s V). now rewrite Hclose.
Qed.

Lemma destroy_valid_close_ok_witness :
  exec scripted (destroyTapInterface {| mFd := 3 |}) good_kernel
  = {| retval := true;
       self := {| mFd := -1 |};
       world := good_kernel;
       calls := [Event (sys_close 3) 0] |}.
Proof.
  apply (destroy_valid_close_ok Script scripted good_kernel good_kernel
           {| mFd := 3 |}).
  - reflexivity.
  - reflexivity.
Defined.

(** ** Methods in sequence *)

(** X6: create, then destroy.  From an invalid handle, when [open] answers a
    descriptor [fd], the TUNSETIFF request answers 0 and [close] of [fd]
    answers 0, the two methods in sequence make exactly open, ioctl and
    close of that same [fd]; destroy returns true and the handle is back at
    descriptor -1. *)
Theorem create_then_destroy
  (W : Type) (h : handler W) (w w1 w2 w3 : W) (s : TapInterface) (fd : Z) :
  invalid s ->
  h _ (sys_open "/dev/net/tun" (Z.lor Sys.O_CLOEXEC Sys.O_RDWR)) w = (fd, w1) ->
  0 <= fd ->
  h _ (sys_ioctl fd Sys.TUNSETIFF tap_ifreq) w1 = (0, w2) ->
  h _ (sys_close fd) w2 = (0, w3) ->
  exec h ((createTapInterface ;; destroyTapInterface) s) w
  = {| retval := true;
       self := {| mFd := -1 |};
       world := w3;
       calls :=
         [Event (sys_open "/dev/net/tun" (Z.lor Sys.O_CLOEXEC Sys.O_RDWR)) fd;
          Event (sys_ioctl fd Sys.TUNSETIFF tap_ifreq) 0;
          Event (sys_close fd) 0] |}.
Proof.
  intros V Hopen Hfd Hioctl Hclose.
  assert (L : (fd <? 0) = false) by now apply Z.ltb_ge.
  assert (C : exec h (createTapInterface s) w
              = mk_Outcome true {| mFd := fd |} w2
                  [Event (sys_open "/dev/net/tun"
                            (Z.lor Sys.O_CLOEXEC Sys.O_RDWR)) fd;
                   Event (sys_ioctl fd Sys.TUNSETIFF tap_ifreq) 0]).
  { unfold createTapInterface, bind. run.
    answer (invalid_geb s V). answer Hopen. answer L. now rewrite Hioctl. }
  rewrite exec_bind, C. cbn [retval self world calls].
  unfold destroyTapInterface, bind, and_then. run.
  answer (geb_nonneg fd Hfd). now rewrite Hclose.
Qed.

Lemma create_then_destroy_witness :
  exec scripted ((createTapInterface ;; destroyTapInterface) TapInterface_new)
    good_kernel
  = {| retval := true;
       self := {| mFd := -1 |};
       world := good_kernel;
       calls :=
         [Event (sys_open "/dev/net/tun" (Z.lor Sys.O_CLOEXEC Sys.O_RDWR)) 3;
          Event (sys_ioctl 3 Sys.TUNSETIFF tap_ifreq) 0;
          Event (sys_close 3) 0] |}.
Proof.
  apply (create_then_destroy Script scripted good_kernel good_kernel
           good_kernel good_kernel TapInterface_new 3).
  - reflexivity.
  - reflexivity.
  - lia.
  - reflexivity.
  - reflexivity.
Defined.

(** X7: destroy again after a failed destroy.  On a valid handle, when the
    first [close] reports an error, a second [destroyTapInterface] calls
    [close] on the very same descriptor once more; if that answers 0 the
    second call returns true and the handle ends at descriptor -1. *)
Theorem destroy_retry_closes_again
  (W : Type) (h : handler W) (w w1 w2 w3 : W) (s : TapInterface) (c : Z) :
  valid s ->
  h _ (sys_close (mFd s)) w = (c, w1) ->
  c <> 0 ->
  h _ (AI_LOG_SYS_ERROR "failed to close the tap fd" []) w1 = (tt, w2) ->
  h _ (sys_close (mFd s)) w2 = (0, w3) ->
  exec h ((destroyTapInterface ;; destroyTapInterface) s) w
  = {| retval := true;
       self := {| mFd := -1 |};
       world := w3;
       calls :=
         [Event (sys_close (mFd s)) c;
          Event (AI_LOG_SYS_ERROR "failed to close the tap fd" []) tt;
          Event (sys_close (mFd s)) 0] |}.
Proof.
  intros V Hc1 Hc Hlog Hc2.
  assert (D : exec h (destroyTapInterface s) w
              = mk_Outcome false s w2
                  [Event (sys_close (mFd s)) c;
                   Event (AI_LOG_SYS_ERROR "failed to close the tap fd" [])
                     tt]).
  { unfold destroyTapInterface, bind. run.
    answer (valid_geb s V). answer Hc1. answer (neqb_true c Hc).
    now rewrite Hlog. }
  rewrite exec_bind, D. cbn [retval self world calls].
  unfold destroyTapInterface, bind, and_then. run.
  answer (valid_geb s V). now rewrite Hc2.
Qed.

Lemma destroy_retry_closes_again_witness :
  exec close_fails_first
    ((destroyTapInterface ;; destroyTapInterface) {| mFd := 3 |}) 1%nat
  = {| retval := true;
       self := {| mFd := -1 |};
       world := 0%nat;
       calls :=
         [Event (sys_close 3) (-1);
          Event (AI_LOG_SYS_ERROR "failed to close the tap fd" []) tt;
          Event (sys_close 3) 0] |}.
Proof.
  apply (destroy_retry_closes_again nat close_fails_first 1%nat 0%nat 0%nat
           0%nat {| mFd := 3 |} (-1)).
  - reflexivity.
  - reflexivity.
  - lia.
  - reflexivity.
  - reflexivity.
Defined.

(** X8: a failed create gates the link operations.  In any environment and
    from any handle, if [createTapInterface] returns false then [up] and
    [down] called next return false without any call: nothing reaches the
    Netlink object. *)
Theorem failed_create_gates_up_down
  (W : Type) (h : handler W) (w : W) (s : TapInterface) (netlink : Netlink) :
  retval (exec h (createTapInterface s) w) = false ->
  exec h (up netlink (self (exec h (createTapInterface s) w)))
    (world (exec h (createTapInterface s) w))
  = {| retval := false;
       self := self (exec h (createTapInterface s) w);
       world := world (exec h (createTapInterface s) w);
       calls := [] |}
  /\ exec h (down netlink (self (exec h (createTapInterface s) w)))
       (world (exec h (createTapInterface s) w))
     = {| retval := false;
          self := self (exec h (createTapInterface s) w);
          world := world (exec h (createTapInterface s) w);
          calls := [] |}.
Proof.
  intros F.
  assert (I : invalid (self (exec h (createTapInterface s) w))).
  { destruct (create_outcome h s w)
      as [[V E] | [[V (r & w' & L & E)] | [[V (fd & w' & L & E)]
         | [V (fd & r & c & w' & L & N & E)]]]];
      rewrite E in F |- *; cbn [retval self] in *;
      try discriminate; try reflexivity.
    now apply invalid_iff. }
  revert I.
  generalize (world (exec h (createTapInterface s) w)) as w'.
  generalize (self (exec h (createTapInterface s) w)) as s'.
  intros s' w' I. split.
  - unfold up, bind. run. now rewrite (invalid_ltb s' I).
  - unfold down, bind. run. now rewrite (invalid_ltb s' I).
Qed.

Lemma failed_create_gates_up_down_witness :
  exec scripted
    (up (NetlinkObj 0)
       (self (exec scripted (createTapInterface TapInterface_new)
                refusing_kernel)))
    (world (exec scripted (createTapInterface TapInterface_new)
              refusing_kernel))
  = {| retval := false;
       self := self (exec scripted (createTapInterface TapInterface_new)
                       refusing_kernel);
       world := world (exec scripted (createTapInterface TapInterface_new)
                         refusing_kernel);
       calls := [] |}
  /\ exec scripted
       (down (NetlinkObj 0)
          (self (exec scripted (createTapInterface TapInterface_new)
                   refusing_kernel)))
       (world (exec scripted (createTapInterface TapInterface_new)
                 refusing_kernel))
     = {| retval := false;
          self := self (exec scripted (createTapInterface TapInterface_new)
                          refusing_kernel);
          world := world (exec scripted (createTapInterface TapInterface_new)
                            refusing_kernel);
          calls := [] |}.
Proof.
  apply (failed_create_gates_up_down Script scripted refusing_kernel
           TapInterface_new (NetlinkObj 0)).
  reflexivity.
Defined.

(** ** Who is called by what *)

(** X9: in any environment and on any handle, [createTapInterface] and
    [destroyTapInterface] make no call on a Netlink object, and every call
    made by [up], [down], [macAddress] and [setMACAddress] is a call on the
    Netlink object: they make no system call and write no log line. *)
Theorem lifecycle_and_link_calls_apart
  (W : Type) (h : handler W) (w : W) (s : TapInterface) (netlink : Netlink)
  (address : MacAddress) :
  (forallb (fun e => negb (is_netlink_call e))
     (calls (exec h (createTapInterface s) w)) = true
   /\ forallb (fun e => negb (is_netlink_call e))
        (calls (exec h (destroyTapInterface s) w)) = true)
  /\ (forallb is_netlink_call (calls (exec h (up netlink s) w)) = true
      /\ forallb is_netlink_call (calls (exec h (down netlink s) w)) = true
      /\ forallb is_netlink_call (calls (exec h (macAddress netlink s) w))
         = true
      /\ forallb is_netlink_call
           (calls (exec h (setMACAddress netlink address s) w)) = true).
Proof.
  split; [split |].
  - destruct (create_outcome h s w)
      as [[V E] | [[V (r & w' & L & E)] | [[V (fd & w' & L & E)]
         | [V (fd & r & c & w' & L & N & E)]]]];
      rewrite E; reflexivity.
  - destruct (destroy_outcome h s w)
      as [[V E] | [[V (w' & E)] | [V (c & w' & N & E)]]];
      rewrite E; reflexivity.
  - repeat split.
    + unfold up, bind. run. now destruct (mFd s <? 0).
    + unfold down, bind. run. now destruct (mFd s <? 0).
Qed.

(** ** Which descriptors are closed *)

(** X10: in any environment and from any handle, every descriptor
    [createTapInterface] closes is one that [open] returned, as a valid
    descriptor, earlier in that same call.  On a handle that is already
    valid it closes nothing, so the descriptor the handle holds is never
    closed by create. *)
Theorem create_closes_only_what_it_opened
  (W : Type) (h : handler W) (w : W) (s : TapInterface) :
  incl (flat_map closed (calls (exec h (createTapInterface s) w)))
       (flat_map opened (calls (exec h (createTapInterface s) w)))
  /\ (valid s ->
      flat_map closed (calls (exec h (createTapInterface s) w)) = []).
Proof.
  destruct (create_outcome h s w)
    as [[V E] | [[V (r & w' & L & E)] | [[V (fd & w' & L & E)]
       | [V (fd & r & c & w' & L & N & E)]]]];
    rewrite E; cbn [calls flat_map closed opened app].
  - split; [apply incl_nil_l | reflexivity].
  - split; [apply incl_nil_l | reflexivity].
  - split; [apply incl_nil_l | reflexivity].
  - rewrite (geb_nonneg fd L). split; [apply incl_refl |].
    intros V'. exfalso. exact (valid_not_invalid s V' V).
Qed.

(** X11: in any environment and from any handle, [destroyTapInterface]
    opens nothing and closes exactly the descriptor the handle holds, once,
    when the handle is valid; on an invalid handle it closes nothing. *)
Theorem destroy_closes_own_descriptor_once
  (W : Type) (h : handler W) (w : W) (s : TapInterface) :
  flat_map closed (calls (exec h (destroyTapInterface s) w))
  = (if mFd s >=? 0 then [mFd s] else [])
  /\ flat_map opened (calls (exec h (destroyTapInterface s) w)) = [].
Proof.
  destruct (destroy_outcome h s w)
    as [[V E] | [[V (w' & E)] | [V (c & w' & N & E)]]];
    rewrite E; cbn [calls flat_map closed opened app].
  - now rewrite (invalid_geb s V).
  - now rewrite (valid_geb s V).
  - now rewrite (valid_geb s V).
Qed.

(** ** Any sequence of method calls *)

Section Sequences.
Context {W : Type} (h : handler W).

(** One method call keeps the handle's descriptor among the descriptors it
    was given ([D], from before) or has opened, and closes only such. *)
Lemma invoke_ownership (m : method) (s : TapInterface) (w : W) (D : list Z) :
  (valid s -> In (mFd s) D) ->
  incl (flat_map closed (calls (exec h (invoke m s) w)))
       (D ++ flat_map opened (calls (exec h (invoke m s) w)))
  /\ (valid (self (exec h (invoke m s) w)) ->
      In (mFd (self (exec h (invoke m s) w)))
         (D ++ flat_map opened (calls (exec h (invoke m s) w)))).
Proof.
  intros O.
  assert (K : incl (@nil Z) (D ++ []) /\ (valid s -> In (mFd s) (D ++ []))).
  { split; [apply incl_nil_l |].
    intros V. apply in_or_app. left. now apply O. }
  destruct m; unfold invoke; rewrite exec_discard; cbn [self calls].
  - destruct (create_outcome h s w)
      as [[V E] | [[V (r & w' & L & E)] | [[V (fd & w' & L & E)]
         | [V (fd & r & c & w' & L & N & E)]]]];
      rewrite E; cbn [calls self flat_map closed opened app mFd].
    + exact K.
    + rewrite (geb_neg r L). split; [apply incl_nil_l |].
      intros V'. apply valid_iff in V'. cbn in V'. lia.
    + rewrite (geb_nonneg fd L). split; [apply incl_nil_l |].
      intros _. apply in_or_app. right. now left.
    + rewrite (geb_nonneg fd L). split.
      * apply incl_appr, incl_refl.
      * intros V'. apply valid_iff in V'. cbn in V'. lia.
  - destruct (destroy_outcome h s w)
      as [[V E] | [[V (w' & E)] | [V (c & w' & N & E)]]];
      rewrite E; cbn [calls self flat_map closed opened app mFd].
    + split; [apply incl_nil_l |].
      intros V'. apply valid_iff in V'. cbn in V'. lia.
    + split.
      * intros x [<- | []]. apply in_or_app. left. now apply O.
      * intros V'. apply valid_iff in V'. cbn in V'. lia.
    + split.
      * intros x [<- | []]. apply in_or_app. left. now apply O.
      * intros _. apply in_or_app. left. now apply O.
  - exact K.
  - exact K.
  - unfold up, bind. run. destruct (mFd s <? 0); exact K.
  - unfold down, bind. run. destruct (mFd s <? 0); exact K.
  - exact K.
  - exact K.
Qed.

Lemma invoke_all_ownership (ms : list method) :
  forall (s : TapInterface) (w : W) (D : list Z),
    (valid s -> In (mFd s) D) ->
    incl (flat_map closed (calls (exec h (invoke_all ms s) w)))
         (D ++ flat_map opened (calls (exec h (invoke_all ms s) w)))
    /\ (valid (self (exec h (invoke_all ms s) w)) ->
        In (mFd (self (exec h (invoke_all ms s) w)))
           (D ++ flat_map opened (calls (exec h (invoke_all ms s) w)))).
Proof.
  induction ms as [| m ms IH]; intros s w D O.
  - cbn. split; [apply incl_nil_l |].
    intros V. apply in_or_app. left. now apply O.
  - cbn [invoke_all]. rewrite exec_bind. unfold and_then.
    cbn [calls self]. rewrite !flat_map_app.
    destruct (invoke_ownership m s w D O) as [I1 O1].
    destruct (IH (self (exec h (invoke m s) w))
                 (world (exec h (invoke m s) w))
                 (D ++ flat_map opened (calls (exec h (invoke m s) w)))%list
                 O1)
      as [I2 O2].
    rewrite app_assoc. split.
    + apply incl_app; [| exact I2]. now apply incl_appl.
    + exact O2.
Qed.

(** A method that is not create or destroy leaves the handle as it was and
    makes only Netlink calls. *)
Lemma invoke_link_only (m : method) (s : TapInterface) (w : W) :
  is_lifecycle m = false ->
  self (exec h (invoke m s) w) = s
  /\ forallb is_netlink_call (calls (exec h (invoke m s) w)) = true.
Proof.
  intros N.
  destruct m; try discriminate N; unfold invoke; rewrite exec_discard;
    cbn [self calls]; try (split; reflexivity).
  - unfold up, bind. run. destruct (mFd s <? 0); split; reflexivity.
  - unfold down, bind. run. destruct (mFd s <? 0); split; reflexivity.
Qed.

End Sequences.

(** X12: the handle closes only what it opened.  Start from a freshly
    constructed handle and call any methods in any order, in any
    environment: every descriptor ever passed to [close] is one that a
    successful [open] returned in that run, and if the handle ends valid its
    descriptor is one of those too. *)
Theorem handle_closes_only_opened
  (W : Type) (h : handler W) (w : W) (ms : list method) :
  incl (flat_map closed (calls (exec h (invoke_all ms TapInterface_new) w)))
       (flat_map opened (calls (exec h (invoke_all ms TapInterface_new) w)))
  /\ (valid (self (exec h (invoke_all ms TapInterface_new) w)) ->
      In (mFd (self (exec h (invoke_all ms TapInterface_new) w)))
         (flat_map opened
            (calls (exec h (invoke_all ms TapInterface_new) w)))).
Proof.
  apply (invoke_all_ownership h ms TapInterface_new w []).
  intros V. apply valid_iff in V. cbn in V. lia.
Qed.

Lemma handle_closes_only_opened_witness :
  incl (flat_map closed
          (calls (exec close_fails_first
                    (invoke_all
                       [call_createTapInterface; call_up (NetlinkObj 0);
                        call_destroyTapInterface; call_destroyTapInterface;
                        call_createTapInterface]
                       TapInterface_new) 1%nat)))
       (flat_map opened
          (calls (exec close_fails_first
                    (invoke_all
                       [call_createTapInterface; call_up (NetlinkObj 0);
                        call_destroyTapInterface; call_destroyTapInterface;
                        call_createTapInterface]
                       TapInterface_new) 1%nat)))
  /\ In 3
       (flat_map opened
          (calls (exec close_fails_first
                    (invoke_all
                       [call_createTapInterface; call_up (NetlinkObj 0);
                        call_destroyTapInterface; call_destroyTapInterface;
                        call_createTapInterface]
                       TapInterface_new) 1%nat))).
Proof.
  destruct (handle_closes_only_opened nat close_fails_first 1%nat
              [call_createTapInterface; call_up (NetlinkObj 0);
               call_destroyTapInterface; call_destroyTapInterface;
               call_createTapInterface]) as [I V].
  split; [exact I |]. apply V. reflexivity.
Defined.

(** X13: only create and destroy move the handle.  In any environment and
    from any handle, a sequence of method calls with no
    [createTapInterface] and no [destroyTapInterface] in it leaves the
    handle exactly as it was, and every call it makes is a call on a Netlink
    object: no open, ioctl or close, no log line. *)
Theorem link_sequence_keeps_handle
  (W : Type) (h : handler W) (ms : list method) (s : TapInterface) (w : W) :
  forallb (fun m => negb (is_lifecycle m)) ms = true ->
  self (exec h (invoke_all ms s) w) = s
  /\ forallb is_netlink_call (calls (exec h (invoke_all ms s) w)) = true.
Proof.
  revert s w. induction ms as [| m ms IH]; intros s w N.
  - split; reflexivity.
  - cbn [forallb] in N. apply andb_true_iff in N. destruct N as [Nm Nms].
    apply negb_true_iff in Nm.
    cbn [invoke_all]. rewrite exec_bind. unfold and_then. cbn [calls self].
    destruct (invoke_link_only h m s w Nm) as [S1 C1].
    rewrite S1.
    destruct (IH s (world (exec h (invoke m s) w)) Nms) as [S2 C2].
    split; [exact S2 |]. rewrite forallb_app, C1, C2. reflexivity.
Qed.

Lemma link_sequence_keeps_handle_witness :
  self (exec scripted
          (invoke_all
             [call_up (NetlinkObj 0); call_isValid;
              call_setMACAddress (NetlinkObj 0) (x02, x00, x00, x00, x00, x01);
              call_macAddress (NetlinkObj 0); call_name;
              call_down (NetlinkObj 0)]
             {| mFd := 3 |}) good_kernel)
  = {| mFd := 3 |}
  /\ forallb is_netlink_call
       (calls (exec scripted
                 (invoke_all
                    [call_up (NetlinkObj 0); call_isValid;
                     call_setMACAddress (NetlinkObj 0)
                       (x02, x00, x00, x00, x00, x01);
                     call_macAddress (NetlinkObj 0); call_name;
                     call_down (NetlinkObj 0)]
                    {| mFd := 3 |}) good_kernel))
     = true.
Proof.
  apply (link_sequence_keeps_handle Script scripted
           [call_up (NetlinkObj 0); call_isValid;
            call_setMACAddress (NetlinkObj 0) (x02, x00, x00, x00, x00, x01);
            call_macAddress (NetlinkObj 0); call_name;
            call_down (NetlinkObj 0)]
           {| mFd := 3 |} good_kernel).
  reflexivity.
Defined.

(** ** After create *)

Lemma create_failure_invalid
  (W : Type) (h : handler W) (w : W) (s : TapInterface) :
  retval (exec h (createTapInterface s) w) = false ->
  invalid (self (exec h (createTapInterface s) w)).
Proof.
  intros F.
  destruct (create_outcome h s w)
    as [[V E] | [[V (r & w' & L & E)] | [[V (fd & w' & L & E)]
       | [V (fd & r & c & w' & L & N & E)]]]];
    rewrite E in F |- *; cbn [retval self] in *;
    try discriminate; try reflexivity.
  now apply invalid_iff.
Qed.

(** X14: a successful create opens the gate.  In any environment and from
    any handle, if [createTapInterface] returns true then [up] called next
    makes exactly one call, [ifaceUp] with the name "dobby_tap0" on the
    given Netlink object, and returns its answer; the handle is not
    touched.  [down] does the same with [ifaceDown]. *)
Theorem successful_create_enables_up_down
  (W : Type) (h : handler W) (w wu wd : W) (s : TapInterface)
  (netlink : Netlink) (bu bd : bool) :
  retval (exec h (createTapInterface s) w) = true ->
  h _ (ifaceUp netlink "dobby_tap0") (world (exec h (createTapInterface s) w))
  = (bu, wu) ->
  h _ (ifaceDown netlink "dobby_tap0")
    (world (exec h (createTapInterface s) w))
  = (bd, wd) ->
  exec h (up netlink (self (exec h (createTapInterface s) w)))
    (world (exec h (createTapInterface s) w))
  = {| retval := bu;
       self := self (exec h (createTapInterface s) w);
       world := wu;
       calls := [Event (ifaceUp netlink "dobby_tap0") bu] |}
  /\ exec h (down netlink (self (exec h (createTapInterface s) w)))
       (world (exec h (createTapInterface s) w))
     = {| retval := bd;
          self := self (exec h (createTapInterface s) w);
          world := wd;
          calls := [Event (ifaceDown netlink "dobby_tap0") bd] |}.
Proof.
  intros T. pose proof (create_success_valid h s w T) as V. revert V.
  generalize (world (exec h (createTapInterface s) w)) as w'.
  generalize (self (exec h (createTapInterface s) w)) as s'.
  intros s' w' V Hu Hd. split.
  - unfold up, bind. run. answer (valid_ltb s' V).
    change TAP_NAME with "dobby_tap0". now rewrite Hu.
  - unfold down, bind. run. answer (valid_ltb s' V).
    change TAP_NAME with "dobby_tap0". now rewrite Hd.
Qed.

Lemma successful_create_enables_up_down_witness :
  exec scripted
    (up (NetlinkObj 0)
       (self (exec scripted (createTapInterface TapInterface_new)
                good_kernel)))
    (world (exec scripted (createTapInterface TapInterface_new) good_kernel))
  = {| retval := true;
       self := self (exec scripted (createTapInterface TapInterface_new)
                       good_kernel);
       world := good_kernel;
       calls := [Event (ifaceUp (NetlinkObj 0) "dobby_tap0") true] |}
  /\ exec scripted
       (down (NetlinkObj 0)
          (self (exec scripted (createTapInterface TapInterface_new)
                   good_kernel)))
       (world (exec scripted (createTapInterface TapInterface_new)
                 good_kernel))
     = {| retval := true;
          self := self (exec scripted (createTapInterface TapInterface_new)
                          good_kernel);
          world := good_kernel;
          calls := [Event (ifaceDown (NetlinkObj 0) "dobby_tap0") true] |}.
Proof.
  apply (successful_create_enables_up_down Script scripted good_kernel
           good_kernel good_kernel TapInterface_new (NetlinkObj 0) true true).
  - reflexivity.
  - reflexivity.
  - reflexivity.
Defined.

(** X15: a failed create is not remembered.  In any environment and from
    any handle, if [createTapInterface] returns false then the next
    [createTapInterface] starts over: its first call is again [open] of
    "/dev/net/tun" with O_CLOEXEC | O_RDWR. *)
Theorem create_after_failure_opens_again
  (W : Type) (h : handler W) (w : W) (s : TapInterface) :
  retval (exec h (createTapInterface s) w) = false ->
  exists (fd : Z) (rest : list event),
    calls (exec h (createTapInterface (self (exec h (createTapInterface s) w)))
             (world (exec h (createTapInterface s) w)))
    = Event (sys_open "/dev/net/tun" (Z.lor Sys.O_CLOEXEC Sys.O_RDWR)) fd
      :: rest.
Proof.
  intros F. pose proof (create_failure_invalid W h w s F) as I. revert I.
  generalize (world (exec h (createTapInterface s) w)) as w'.
  generalize (self (exec h (createTapInterface s) w)) as s'.
  intros s' w' I.
  destruct (create_outcome h s' w')
    as [[V E] | [[V (r & w2 & L & E)] | [[V (fd & w2 & L & E)]
       | [V (fd & r & c & w2 & L & N & E)]]]];
    rewrite E; cbn [calls].
  - exfalso. exact (valid_not_invalid s' V I).
  - now eexists _, _.
  - now eexists _, _.
  - now eexists _, _.
Qed.

Lemma create_after_failure_opens_again_witness :
  exists (fd : Z) (rest : list event),
    calls (exec scripted
             (createTapInterface
                (self (exec scripted (createTapInterface TapInterface_new)
                         no_tun_kernel)))
             (world (exec scripted (createTapInterface TapInterface_new)
                       no_tun_kernel)))
    = Event (sys_open "/dev/net/tun" (Z.lor Sys.O_CLOEXEC Sys.O_RDWR)) fd
      :: rest.
Proof.
  apply (create_after_failure_opens_again Script scripted no_tun_kernel
           TapInterface_new).
  reflexivity.
Defined.
